(** * msf_core: measurements of the multi-sensor-fusion EKF

    Shallow embedding of [msf_core/include/msf_core/msf_measurement.hpp]:
    the measurement hierarchy ([MSF_MeasurementBase], [MSF_InvalidMeasurement],
    [MSF_Measurement], [MSF_InitMeasurement]) and the comparator
    [sortMeasurements].

    Conventions.
    - A C++ [double] is an element of a real field [F]: finite values only
      (no NaN, no infinity) and exact arithmetic.  Comparison of finite
      doubles agrees with comparison of the rationals they denote.
    - A template index [INDEX] is an ordinal ['I_nStates]: an index out of
      range does not compile in the source, and does not type-check here.
    - A C++ method that mutates [this] is a function returning the new
      object.
    - The snapshots live in the buffer of the core; a
      [shared_ptr<EKFState>] into it is the position of the snapshot, and
      a write through the pointer replaces the snapshot at that position.
    - What the header only declares (the bodies included from
      msf_core/implementation/msf_measurement.hpp, [EKFState], [MSF_Core])
      follows the specification; each such definition says so. *)

From Stdlib Require Import String.
From mathcomp Require Import boot order algebra.

Set Implicit Arguments.
Unset Strict Implicit.
Unset Printing Implicit Defensive.

Import Order.TTheory GRing.Theory Num.Theory.
Local Open Scope ring_scope.

(** * Part I: the model *)

(** ** Errors *)

(** Modelled from the spec: the error taxonomy of section 7.  The header
    itself has no error values, [apply] is [void]. *)
Inductive MeasurementError : Type :=
| ConversionFailed
| DimensionMismatch
| TooOld
| SingularInnovation
| NotSet
| Invalid.

Inductive result (A : Type) : Type :=
| Ok (a : A)
| Err (e : MeasurementError).
Arguments Ok {A} a.
Arguments Err {A} e.

Section Model.

(** ** States *)

Variable F : realFieldType.
Variable nStates : nat.

(** One entry of the state list: [getStateVar<INDEX>()] has the members
    [state_] and [hasResetValue]. *)
Record StateVar : Type := mkStateVar {
  state_ : F;
  hasResetValue : bool
}.

(** Modelled from the spec: [EKFState] is declared in msf_statedef.hpp,
    which is not among the sources.  The fields are the ones the header
    touches ([P_], [w_m_], [a_m_], the state list) and the snapshot time of
    the specification's StateSnapshot. *)
Record EKFState : Type := mkEKFState {
  statevars_ : {ffun 'I_nStates -> StateVar};
  P_ : 'M[F]_nStates;
  w_m_ : 'cV[F]_3;
  a_m_ : 'cV[F]_3;
  state_time : F
}.

Definition getStateVar (s : EKFState) (i : 'I_nStates) : StateVar :=
  statevars_ s i.

(** Assignment through the reference returned by [getStateVar<INDEX>()]. *)
Definition updStateVar (s : EKFState) (i : 'I_nStates)
    (f : StateVar -> StateVar) : EKFState :=
  {| statevars_ := [ffun j => if j == i then f (statevars_ s j)
                              else statevars_ s j];
     P_ := P_ s; w_m_ := w_m_ s; a_m_ := a_m_ s;
     state_time := state_time s |}.

Definition assign_state_ (v : F) (sv : StateVar) : StateVar :=
  {| state_ := v; hasResetValue := hasResetValue sv |}.

Definition assign_hasResetValue (b : bool) (sv : StateVar) : StateVar :=
  {| state_ := state_ sv; hasResetValue := b |}.

Definition stateVector (s : EKFState) : 'cV[F]_nStates :=
  \col_i state_ (statevars_ s i).

(** ** MSF_InitMeasurement *)

Record MSF_InitMeasurement : Type := mkInit {
  init_time_ : F;
  InitState : EKFState;
  ContainsInitialSensorReadings_ : bool
}.

(** The constructor reads the clock ([ros::Time::now().toSec()], here the
    argument [now]) and default-constructs [InitState] (here [s0]). *)
Definition MSF_InitMeasurement_ctor (s0 : EKFState) (now : F)
    (ContainsInitialSensorReadings : bool) : MSF_InitMeasurement :=
  {| init_time_ := now; InitState := s0;
     ContainsInitialSensorReadings_ := ContainsInitialSensorReadings |}.

Definition with_InitState (m : MSF_InitMeasurement) (s : EKFState) :=
  {| init_time_ := init_time_ m; InitState := s;
     ContainsInitialSensorReadings_ := ContainsInitialSensorReadings_ m |}.

(** [InitState.getStateVar<INDEX>().state_ = initvalue;
     InitState.getStateVar<INDEX>().hasResetValue = true;] *)
Definition setStateInitValue (m : MSF_InitMeasurement) (i : 'I_nStates)
    (initvalue : F) : MSF_InitMeasurement :=
  let s1 := updStateVar (InitState m) i (assign_state_ initvalue) in
  let s2 := updStateVar s1 i (assign_hasResetValue true) in
  with_InitState m s2.

(** [InitState.get<INDEX>().hasResetValue = false;] *)
Definition resetStateInitValue (m : MSF_InitMeasurement) (i : 'I_nStates)
    : MSF_InitMeasurement :=
  with_InitState m (updStateVar (InitState m) i (assign_hasResetValue false)).

(** [return InitState.get<INDEX>();] the stored value, whatever the flag. *)
Definition getStateInitValue (m : MSF_InitMeasurement) (i : 'I_nStates) : F :=
  state_ (getStateVar (InitState m) i).

(** The source has no failing path in [getStateInitValue]; as a fallible
    read it always succeeds. *)
Definition getStateInitValue_result (m : MSF_InitMeasurement)
    (i : 'I_nStates) : result F :=
  Ok (getStateInitValue m i).

Definition hasInitValue (m : MSF_InitMeasurement) (i : 'I_nStates) : bool :=
  hasResetValue (getStateVar (InitState m) i).

(** [get_P()], [get_w_m()], [get_a_m()] return mutable references: the
    caller reads or overwrites the field. *)
Definition get_P (m : MSF_InitMeasurement) : 'M[F]_nStates := P_ (InitState m).
Definition get_w_m (m : MSF_InitMeasurement) : 'cV[F]_3 := w_m_ (InitState m).
Definition get_a_m (m : MSF_InitMeasurement) : 'cV[F]_3 := a_m_ (InitState m).

Definition assign_P (m : MSF_InitMeasurement) (P : 'M[F]_nStates) :=
  let s := InitState m in
  with_InitState m
    {| statevars_ := statevars_ s; P_ := P; w_m_ := w_m_ s; a_m_ := a_m_ s;
       state_time := state_time s |}.

Definition assign_w_m (m : MSF_InitMeasurement) (w : 'cV[F]_3) :=
  let s := InitState m in
  with_InitState m
    {| statevars_ := statevars_ s; P_ := P_ s; w_m_ := w; a_m_ := a_m_ s;
       state_time := state_time s |}.

Definition assign_a_m (m : MSF_InitMeasurement) (a : 'cV[F]_3) :=
  let s := InitState m in
  with_InitState m
    {| statevars_ := statevars_ s; P_ := P_ s; w_m_ := w_m_ s; a_m_ := a;
       state_time := state_time s |}.

(** Every way the header offers to change an [MSF_InitMeasurement]. *)
Inductive InitOp : Type :=
| OpSet (i : 'I_nStates) (v : F)
| OpReset (i : 'I_nStates)
| OpAssignP (P : 'M[F]_nStates)
| OpAssign_w_m (w : 'cV[F]_3)
| OpAssign_a_m (a : 'cV[F]_3).

Definition init_step (m : MSF_InitMeasurement) (op : InitOp)
    : MSF_InitMeasurement :=
  match op with
  | OpSet i v => setStateInitValue m i v
  | OpReset i => resetStateInitValue m i
  | OpAssignP P => assign_P m P
  | OpAssign_w_m w => assign_w_m m w
  | OpAssign_a_m a => assign_a_m m a
  end.

(** Modelled from the spec: [MSF_InitMeasurement::apply] is declared in the
    header and defined in msf_core/implementation/msf_measurement.hpp, which
    is not among the sources.  "For every component whose flag is set,
    overwrite the corresponding entry of snapshot.stateVector (and, for the
    subset representing raw bias/gyro/accel seeds, the designated fields)
    and clear that component's own covariance row/column to a configured
    initial uncertainty".  The specification does not say which fields are
    designated to which components: [w_m_] and [a_m_], which are outside
    its StateSnapshot, the snapshot's own flags and its time are left as
    they are. *)
Definition MSF_InitMeasurement_apply (initialUncertainty : 'M[F]_nStates)
    (m : MSF_InitMeasurement) (stateWithCovariance : EKFState) : EKFState :=
  let s := stateWithCovariance in
  {| statevars_ :=
       [ffun i => if hasInitValue m i
                  then assign_state_ (getStateInitValue m i) (statevars_ s i)
                  else statevars_ s i];
     P_ := \matrix_(i, j)
             if hasInitValue m i || hasInitValue m j
             then initialUncertainty i j else P_ s i j;
     w_m_ := w_m_ s; a_m_ := a_m_ s; state_time := state_time s |}.

(** ** Matrices whose sizes are known at run time

    [calculateAndApplyCorrection] is a template over three independent
    matrix types [H_type], [Res_type], [R_type]: the sizes of its arguments
    are not related by its signature. *)
Record dmx : Type := Dmx {
  drows : nat;
  dcols : nat;
  dmat : 'M[F]_(drows, dcols)
}.

Definition dentry (A : dmx) (i j : nat) : F :=
  match (insub i : option 'I_(drows A)), (insub j : option 'I_(dcols A)) with
  | Some i', Some j' => dmat A i' j'
  | _, _ => 0
  end.

(** The matrix as an [m] x [n] one, when these are its sizes. *)
Definition dmx_to (m n : nat) (A : dmx) : option 'M[F]_(m, n) :=
  if (drows A == m) && (dcols A == n)
  then Some (\matrix_(i, j) dentry A i j) else None.

(** ** MSF_InvalidMeasurement and MSF_Measurement *)

Record MSF_InvalidMeasurement : Type := mkInvalid {
  invalid_time_ : F
}.

(** [MSF_Measurement<T, MEASUREMENTSIZE>] with its member [R_], a square
    matrix of that size.  [H_] and [res_] are modelled from the spec: the
    sensor classes that derive from [MSF_Measurement] are not among the
    sources, and "the generic correction inputs (Jacobian H, residual res,
    noise covariance R)" are what their conversion produces. *)
Record MSF_Measurement (MEASUREMENTSIZE : nat) : Type := mkMeasurement {
  meas_time_ : F;
  R_ : 'M[F]_MEASUREMENTSIZE;
  H_ : dmx;
  res_ : dmx
}.

Variable Reading : Type.

(** The pure virtual [makeFromSensorReadingImpl]: any function of the
    reading that may rewrite the members of [this]. *)
Variable makeFromSensorReadingImpl :
  forall sz : nat, Reading -> MSF_Measurement sz -> MSF_Measurement sz.

(** [time_ = timestamp; makeFromSensorReadingImpl(reading);] *)
Definition makeFromSensorReading (sz : nat) (m : MSF_Measurement sz)
    (reading : Reading) (timestamp : F) : MSF_Measurement sz :=
  let m1 := {| meas_time_ := timestamp; R_ := R_ m; H_ := H_ m;
               res_ := res_ m |} in
  makeFromSensorReadingImpl reading m1.

(** The class hierarchy under [MSF_MeasurementBase]. *)
Inductive MSF_MeasurementBase : Type :=
| IsInvalid (m : MSF_InvalidMeasurement)
| IsSensor (sz : nat) (m : MSF_Measurement sz)
| IsInit (m : MSF_InitMeasurement).

Inductive Kind : Type := KInvalid | KTyped | KInit.

Definition kind (m : MSF_MeasurementBase) : Kind :=
  match m with
  | IsInvalid _ => KInvalid
  | IsSensor _ _ => KTyped
  | IsInit _ => KInit
  end.

(** The member [double time_] of the base class. *)
Definition time_ (m : MSF_MeasurementBase) : F :=
  match m with
  | IsInvalid m' => invalid_time_ m'
  | IsSensor _ m' => meas_time_ m'
  | IsInit m' => init_time_ m'
  end.

(** The methods of the header that assign to members of a measurement.  A
    method that the class of [m] does not have cannot be called on it. *)
Inductive MeasOp : Type :=
| OpMakeFromSensorReading (reading : Reading) (timestamp : F)
| OpInit (op : InitOp).

Definition meas_step (m : MSF_MeasurementBase) (op : MeasOp)
    : MSF_MeasurementBase :=
  match m, op with
  | IsSensor _ m', OpMakeFromSensorReading reading timestamp =>
      IsSensor (makeFromSensorReading m' reading timestamp)
  | IsInit m', OpInit op' => IsInit (init_step m' op')
  | _, _ => m
  end.

(** ** sortMeasurements: [return (lhs.time_ < rhs.time_);] *)
Definition sortMeasurements (lhs rhs : MSF_MeasurementBase) : bool :=
  time_ lhs < time_ rhs.

(** ** The filter core and what is observable outside it *)

(** What leaves the core: a line on the ROS error log
    ([ROS_ERROR_STREAM]), and, modelled from the spec, a failure reported to
    the Logger collaborator and a call of the re-propagation hook. *)
Inductive Event : Type :=
| RosError (msg : string)
| Reported (e : MeasurementError)
| ReapplyFrom (t : F).

(** Modelled from the spec: [MSF_Core] is declared in msf_fwds.hpp only.
    The core owns the StateHistoryBuffer; the buffer is kept newest first,
    its first snapshot is the head. *)
Record MSF_Core : Type := mkCore {
  stateBuffer : seq EKFState
}.

Record World : Type := mkWorld {
  core : MSF_Core;
  trace : seq Event
}.

(** [MSF_InvalidMeasurement::apply]: the body is one [ROS_ERROR_STREAM];
    the method is [void], it returns normally. *)
Definition MSF_InvalidMeasurement_apply (m : MSF_InvalidMeasurement)
    (stateWithCovariance : EKFState) (w : World)
    : result unit * EKFState * World :=
  (Ok tt, stateWithCovariance,
   {| core := core w;
      trace := rcons (trace w)
        (RosError "Called apply() on an MSF_InvalidMeasurement object. This should never happen.") |}).

(** ** MeasurementScheduler *)

(** Modelled from the spec: the queue that feeds the core is not among the
    sources, only its comparator is.  "Maintains a time-ordered,
    stable-tie-break pending queue. enqueue(measurement),
    drainNext() -> Option<Measurement>." *)
Definition Scheduler : Type := seq MSF_MeasurementBase.

(** Modelled from the spec: [enqueue] of the MeasurementScheduler.  The
    queue is kept in the order decided by [sortMeasurements]: a new
    measurement goes in front of the first pending one that it precedes. *)
Fixpoint enqueue (m : MSF_MeasurementBase) (q : Scheduler) : Scheduler :=
  match q with
  | [::] => [:: m]
  | x :: q' => if sortMeasurements m x then m :: x :: q'
               else x :: enqueue m q'
  end.

(** Modelled from the spec: [drainNext] of the MeasurementScheduler, the
    first pending measurement and the rest of the queue. *)
Definition drainNext (q : Scheduler)
    : option (MSF_MeasurementBase * Scheduler) :=
  match q with
  | [::] => None
  | x :: q' => Some (x, q')
  end.

Definition enqueueAll (ms : seq MSF_MeasurementBase) (q : Scheduler)
    : Scheduler :=
  foldl (fun q' m => enqueue m q') q ms.

(** Modelled from the spec: the consuming loop, which is external to the
    header: at most [n] calls of [drainNext]; the measurements in the
    order they were yielded, and what is left of the queue. *)
Fixpoint drain (n : nat) (q : Scheduler)
    : seq MSF_MeasurementBase * Scheduler :=
  match n with
  | 0%N => ([::], q)
  | n'.+1 =>
      match drainNext q with
      | None => ([::], q)
      | Some (x, q') => let: (out, rest) := drain n' q' in (x :: out, rest)
      end
  end.

(** ** State and errors threaded through the correction *)

(** A step reads and writes the world and may stop with an error; what was
    written before the error stays written. *)
Definition M (A : Type) : Type := World -> result A * World.

Definition ret (A : Type) (a : A) : M A := fun w => (Ok a, w).

Definition bind (A B : Type) (c : M A) (k : A -> M B) : M B :=
  fun w => match c w with
           | (Ok a, w') => k a w'
           | (Err e, w') => (Err e, w')
           end.

Definition fail (A : Type) (e : MeasurementError) : M A :=
  fun w => (Err e, w).
Arguments fail {A} e.

Notation "'let*' x ':=' c 'in' k" := (bind c (fun x => k))
  (at level 200, x name, c at level 100, k at level 200).
Notation "c ;;; k" := (bind c (fun _ => k))
  (at level 61, right associativity).

Definition getBuffer : M (seq EKFState) :=
  fun w => (Ok (stateBuffer (core w)), w).

Definition putBuffer (buf : seq EKFState) : M unit :=
  fun w => (Ok tt, {| core := {| stateBuffer := buf |}; trace := trace w |}).

Definition emit (ev : Event) : M unit :=
  fun w => (Ok tt, {| core := core w; trace := rcons (trace w) ev |}).

Definition onth (T : Type) (s : seq T) (k : nat) : option T :=
  ohead (drop k s).

(** Replace the [k]-th element; nothing happens out of range. *)
Fixpoint replace_nth (T : Type) (s : seq T) (k : nat) (x : T) : seq T :=
  match s, k with
  | [::], _ => [::]
  | _ :: s', 0%N => x :: s'
  | y :: s', k'.+1 => y :: replace_nth s' k' x
  end.

(** A [shared_ptr<EKFState>] into the buffer is the position of the
    snapshot in it. *)
Definition deref (state : nat) : M EKFState :=
  let* buf := getBuffer in
  match onth buf state with
  | Some s => ret s
  | None => fail TooOld
  end.

Definition store (state : nat) (s : EKFState) : M unit :=
  let* buf := getBuffer in putBuffer (replace_nth buf state s).

(** Modelled from the spec: "reported to the Logger collaborator and the
    measurement is dropped". *)
Definition report (A : Type) (e : MeasurementError) : M A :=
  emit (Reported e) ;;; fail e.
Arguments report {A} e.

Definition sized (m n : nat) (A : dmx) : M 'M[F]_(m, n) :=
  match dmx_to m n A with
  | Some A' => ret A'
  | None => fail DimensionMismatch
  end.

Definition assign_P_ (s : EKFState) (P : 'M[F]_nStates) : EKFState :=
  {| statevars_ := statevars_ s; P_ := P; w_m_ := w_m_ s; a_m_ := a_m_ s;
     state_time := state_time s |}.

(** Modelled from the spec: the correction [delta] "folded into a
    snapshot", added to its state vector ([MSF_Core::applyCorrection] is
    not among the sources). *)
Definition applyCorrection (s : EKFState) (delta : 'cV[F]_nStates)
    : EKFState :=
  {| statevars_ :=
       [ffun i => assign_state_ (state_ (statevars_ s i) + delta i 0)
                                (statevars_ s i)];
     P_ := P_ s; w_m_ := w_m_ s; a_m_ := a_m_ s;
     state_time := state_time s |}.

(** Modelled from the spec: the Joseph form of the covariance update,
    P' = (I - K H) P (I - K H)^T + K R K^T. *)
Definition joseph (m : nat) (P : 'M[F]_nStates) (K : 'M[F]_(nStates, m))
    (H : 'M[F]_(m, nStates)) (R : 'M[F]_m) : 'M[F]_nStates :=
  (1%:M - K *m H) *m P *m (1%:M - K *m H)^T + K *m R *m K^T.

(** Modelled from the spec: S = H P H^T + R. *)
Definition innovation (m : nat) (P : 'M[F]_nStates)
    (H : 'M[F]_(m, nStates)) (R : 'M[F]_m) : 'M[F]_m :=
  H *m P *m H^T + R.

(** Modelled from the spec: K = P H^T S^-1. *)
Definition gain (m : nat) (P : 'M[F]_nStates)
    (H : 'M[F]_(m, nStates)) (R : 'M[F]_m) : 'M[F]_(nStates, m) :=
  P *m H^T *m invmx (innovation P H R).

(** Modelled from the spec: the snapshot [s] after a correction with the
    gain [K]: covariance in Joseph form, state vector moved by [K res]. *)
Definition corrected (m : nat) (s : EKFState) (H : 'M[F]_(m, nStates))
    (res : 'cV[F]_m) (R : 'M[F]_m) : EKFState :=
  let K := gain (P_ s) H R in
  applyCorrection (assign_P_ s (joseph (P_ s) K H R)) (K *m res).

(** Modelled from the spec: [calculateAndApplyCorrection] is declared in
    the header and defined in msf_core/implementation/msf_measurement.hpp,
    which is not among the sources.
      S = H P H^T + R;  K = P H^T S^-1;  dx = K res;
      P' = (I - K H) P (I - K H)^T + K R K^T
    "H/R size inconsistent with state size" is [DimensionMismatch]; an
    innovation covariance that cannot be inverted is [SingularInnovation],
    reported to the Logger.  The measurement size is the size of [R]. *)
Definition calculateAndApplyCorrection (state : nat)
    (H_delayed res_delayed R_delayed : dmx) : M unit :=
  let m := drows R_delayed in
  let* H := sized m nStates H_delayed in
  let* res := sized m 1 res_delayed in
  let* R := sized m m R_delayed in
  let* s := deref state in
  let P := P_ s in
  if innovation P H R \in unitmx then
    let K := gain P H R in
    store state (assign_P_ s (joseph P K H R)) ;;;
    let* s' := deref state in
    store state (applyCorrection s' (K *m res))
  else report SingularInnovation.

(** Modelled from the spec: "findAtOrBefore(time)", the nearest snapshot
    with [snapshot.time <= time]; in a buffer kept newest first it is the
    first one met. *)
Definition findAtOrBefore (buf : seq EKFState) (t : F) : option nat :=
  let k := find (fun s => state_time s <= t) buf in
  if (k < size buf)%N then Some k else None.

(** The hook of the Filter-Core collaborator: re-propagation is outside
    this core, any function of the buffer. *)
Variable reapplyFrom_hook : F -> seq EKFState -> seq EKFState.

(** Modelled from the spec: "reapplyFrom(time)", the call of the hook on
    the buffer, visible on the trace. *)
Definition reapplyFrom (t : F) : M unit :=
  let* buf := getBuffer in
  putBuffer (reapplyFrom_hook t buf) ;;;
  emit (ReapplyFrom t).

(** Modelled from the spec: [apply] of a sensor measurement (the sensor
    classes are not among the sources), section 4.3.
    "If time >= head.time: apply directly to head snapshot.  If
    time < head.time: locate the nearest snapshot with snapshot.time <= time
    (fails with TooOld if none within the retained window); apply the
    correction there; then re-propagate" through [reapplyFrom(time)]. *)
Definition MSF_Measurement_apply (sz : nat) (m : MSF_Measurement sz)
    : M unit :=
  let* buf := getBuffer in
  match buf with
  | [::] => report TooOld
  | head :: _ =>
      if state_time head <= meas_time_ m then
        calculateAndApplyCorrection 0 (H_ m) (res_ m) (Dmx (R_ m))
      else
        match findAtOrBefore buf (meas_time_ m) with
        | None => report TooOld
        | Some k =>
            calculateAndApplyCorrection k (H_ m) (res_ m) (Dmx (R_ m)) ;;;
            reapplyFrom (meas_time_ m)
        end
  end.



End Model.

Notation "'let*' x ':=' c 'in' k" := (bind c (fun x => k))
  (at level 200, x name, c at level 100, k at level 200).
Notation "c ;;; k" := (bind c (fun _ => k))
  (at level 61, right associativity).

(** ** Clients of the header *)
Section Clients.

Variable F : realFieldType.
Variable nStates : nat.

(** A client that calls methods of one [MSF_InitMeasurement] one after the
    other. *)
Definition init_run (m : MSF_InitMeasurement F nStates)
    (ops : seq (InitOp F nStates)) : MSF_InitMeasurement F nStates :=
  foldl (@init_step F nStates) m ops.

(** The operation is [setStateInitValue<j>] or [resetStateInitValue<j>]. *)
Definition touches (j : 'I_nStates) (op : InitOp F nStates) : bool :=
  match op with
  | OpSet i _ => i == j
  | OpReset i => i == j
  | _ => false
  end.

(** Neither measurement is ordered before the other by the comparator. *)
Definition unordered (lhs rhs : MSF_MeasurementBase F nStates) : bool :=
  ~~ sortMeasurements lhs rhs && ~~ sortMeasurements rhs lhs.

(** [apply] of an invalid measurement called [n] times in a row on the same
    snapshot. *)
Fixpoint invalid_apply_n (n : nat) (m : MSF_InvalidMeasurement F)
    (s : EKFState F nStates) (w : World F nStates)
    : EKFState F nStates * World F nStates :=
  match n with
  | 0%N => (s, w)
  | n'.+1 =>
      let: (_, s', w') := MSF_InvalidMeasurement_apply m s w in
      invalid_apply_n n' m s' w'
  end.

(** The text that [MSF_InvalidMeasurement::apply] hands to
    [ROS_ERROR_STREAM]. *)
Definition invalid_apply_message : string :=
  "Called apply() on an MSF_InvalidMeasurement object. This should never happen.".

End Clients.

(** ** Blank objects: every number zero, every flag clear *)
Definition blankState (F : realFieldType) (n : nat) (t : F) : EKFState F n :=
  {| statevars_ := [ffun _ => {| state_ := 0; hasResetValue := false |}];
     P_ := 0; w_m_ := 0; a_m_ := 0; state_time := t |}.

Definition blankInit (n : nat) : MSF_InitMeasurement rat n :=
  MSF_InitMeasurement_ctor (blankState n 0) 0 false.

Definition blankSensor (t : rat) : MSF_Measurement rat 1 :=
  {| meas_time_ := t; R_ := 0; H_ := Dmx (0 : 'M_1);
     res_ := Dmx (0 : 'cV_1) |}.

Definition emptyWorld (F : realFieldType) (n : nat) : World F n :=
  {| core := {| stateBuffer := [::] |}; trace := [::] |}.

(** * Part II: properties *)

(** ** Staged initialisation: [MSF_InitMeasurement] *)
Section InitMeasurementTheory.

Variable F : realFieldType.
Variable nStates : nat.

Implicit Types (s : EKFState F nStates) (m : MSF_InitMeasurement F nStates).
Implicit Types (i j : 'I_nStates) (v : F).

Lemma getStateVar_upd s i f j :
  getStateVar (updStateVar s i f) j =
  if j == i then f (getStateVar s j) else getStateVar s j.
Proof. by rewrite /getStateVar /= ffunE. Qed.

Lemma EKFState_eq s1 s2 :
  statevars_ s1 = statevars_ s2 -> P_ s1 = P_ s2 -> w_m_ s1 = w_m_ s2 ->
  a_m_ s1 = a_m_ s2 -> state_time s1 = state_time s2 -> s1 = s2.
Proof. by case: s1 => ? ? ? ? ?; case: s2 => ? ? ? ? ? /= -> -> -> -> ->. Qed.

Lemma hasInitValue_set m i v j :
  hasInitValue (setStateInitValue m i v) j = (j == i) || hasInitValue m j.
Proof.
rewrite /hasInitValue /setStateInitValue /= !getStateVar_upd.
by case: (j == i).
Qed.

Lemma getStateInitValue_set m i v j :
  getStateInitValue (setStateInitValue m i v) j =
  if j == i then v else getStateInitValue m j.
Proof.
rewrite /getStateInitValue /setStateInitValue /= !getStateVar_upd.
by case: (j == i).
Qed.

Lemma hasInitValue_reset m i j :
  hasInitValue (resetStateInitValue m i) j = (j != i) && hasInitValue m j.
Proof.
rewrite /hasInitValue /resetStateInitValue /= getStateVar_upd.
by case: (j == i).
Qed.

Lemma getStateInitValue_reset m i j :
  getStateInitValue (resetStateInitValue m i) j = getStateInitValue m j.
Proof.
rewrite /getStateInitValue /resetStateInitValue /= getStateVar_upd.
by case: (j == i).
Qed.

Lemma updStateVar_idem s i f :
  (forall sv, f (f sv) = f sv) ->
  updStateVar (updStateVar s i f) i f = updStateVar s i f.
Proof.
move=> fK; apply: EKFState_eq => //=.
by apply/ffunP => j; rewrite !ffunE; case: (j == i).
Qed.

(** The flag of a component that is not the one operated on, and the flag
    under the three field assignments, stay as they are. *)
Lemma hasInitValue_step m op j :
  hasInitValue (init_step m op) j =
  match op with
  | OpSet i _ => (j == i) || hasInitValue m j
  | OpReset i => (j != i) && hasInitValue m j
  | _ => hasInitValue m j
  end.
Proof.
case: op => [i v|i|P|w|a] //=.
- exact: hasInitValue_set.
- exact: hasInitValue_reset.
Qed.

(** C6 (as amended): the flag of a component is raised by
    [setStateInitValue] on that component and by nothing else, and lowered
    by [resetStateInitValue] on that component and by nothing else; a
    [setStateInitValue] on a component that is already flagged goes
    through: the flag stays set and the stored value becomes the new one. *)
Theorem C6_flag_follows_set_and_reset m op j :
  hasInitValue (init_step m op) j =
    match op with
    | OpSet i _ => (j == i) || hasInitValue m j
    | OpReset i => (j != i) && hasInitValue m j
    | _ => hasInitValue m j
    end
  /\ (forall i v, hasInitValue (setStateInitValue m i v) i
        /\ getStateInitValue (setStateInitValue m i v) i = v).
Proof.
split; first exact: hasInitValue_step.
by move=> i v; rewrite hasInitValue_set getStateInitValue_set eqxx.
Qed.

(** C7 (as amended): [getStateInitValue] never fails; it returns the value
    stored for the component whether or not its flag is set.  After
    [resetStateInitValue] the flag is clear and the read still yields the
    value last written by [setStateInitValue]. *)
Theorem C7_get_returns_stored_value m i v :
  (exists x, getStateInitValue_result m i = Ok x)
  /\ hasInitValue (resetStateInitValue (setStateInitValue m i v) i) i = false
  /\ getStateInitValue_result
       (resetStateInitValue (setStateInitValue m i v) i) i = Ok v.
Proof.
split; first by exists (getStateInitValue m i).
rewrite hasInitValue_reset eqxx /=; split=> //.
by rewrite /getStateInitValue_result getStateInitValue_reset
           getStateInitValue_set eqxx.
Qed.

(** C9: clearing the flag of a component twice is clearing it once; the
    clear changes no stored value, and the value last written by
    [setStateInitValue] is still there after it. *)
Theorem C9_reset_idempotent_keeps_value m i :
  resetStateInitValue (resetStateInitValue m i) i = resetStateInitValue m i
  /\ (forall j, getStateInitValue (resetStateInitValue m i) j =
                getStateInitValue m j)
  /\ (forall v, getStateInitValue
                  (resetStateInitValue (setStateInitValue m i v) i) i = v).
Proof.
split; last split.
- by rewrite /resetStateInitValue /= updStateVar_idem.
- by move=> j; rewrite getStateInitValue_reset.
- by move=> v; rewrite getStateInitValue_reset getStateInitValue_set eqxx.
Qed.

(** *** Applying the staged values to a snapshot *)

Variable initialUncertainty : 'M[F]_nStates.

Local Notation init_apply := (MSF_InitMeasurement_apply initialUncertainty).

Lemma state_init_apply m s i :
  state_ (getStateVar (init_apply m s) i) =
  if hasInitValue m i then getStateInitValue m i
  else state_ (getStateVar s i).
Proof. by rewrite /getStateVar /= ffunE; case: ifP. Qed.

Lemma flag_init_apply m s i :
  hasResetValue (getStateVar (init_apply m s) i) =
  hasResetValue (getStateVar s i).
Proof. by rewrite /getStateVar /= ffunE; case: ifP. Qed.

Lemma P_init_apply m s i j :
  P_ (init_apply m s) i j =
  if hasInitValue m i || hasInitValue m j then initialUncertainty i j
  else P_ s i j.
Proof. by rewrite /= mxE. Qed.

Lemma StateVar_eq (a b : StateVar F) :
  state_ a = state_ b -> hasResetValue a = hasResetValue b -> a = b.
Proof. by case: a => ? ?; case: b => ? ? /= -> ->. Qed.

(** C8: two init measurements that flag disjoint components can be applied
    in either order: the resulting snapshots are equal, every flagged
    component holds the value of the measurement that flagged it, and a
    component flagged by neither keeps its value. *)
Theorem C8_staged_init_independent m1 m2 s :
  (forall i, ~~ (hasInitValue m1 i && hasInitValue m2 i)) ->
  [/\ init_apply m2 (init_apply m1 s) = init_apply m1 (init_apply m2 s),
      forall i,
        state_ (getStateVar (init_apply m2 (init_apply m1 s)) i) =
        if hasInitValue m1 i then getStateInitValue m1 i
        else if hasInitValue m2 i then getStateInitValue m2 i
        else state_ (getStateVar s i)
    & forall m i v s',
        state_ (getStateVar (init_apply (setStateInitValue m i v) s') i) = v].
Proof.
move=> dis; split; first last.
- move=> m i v s'.
  by rewrite state_init_apply hasInitValue_set getStateInitValue_set eqxx.
- move=> i; rewrite !state_init_apply.
  by case h2: (hasInitValue m2 i); case h1: (hasInitValue m1 i) => //;
     move: (dis i); rewrite h1 h2.
apply: EKFState_eq => //.
- apply/ffunP => i; apply: StateVar_eq.
    have := state_init_apply; rewrite /getStateVar => E; rewrite !E.
    by case h2: (hasInitValue m2 i); case h1: (hasInitValue m1 i) => //;
       move: (dis i); rewrite h1 h2.
  by have := flag_init_apply; rewrite /getStateVar => E; rewrite !E.
- apply/matrixP => i j; rewrite !P_init_apply.
  by case: (hasInitValue m1 i || hasInitValue m1 j);
     case: (hasInitValue m2 i || hasInitValue m2 j).
Qed.

End InitMeasurementTheory.

(** ** The measurement hierarchy *)
Section MeasurementTheory.

Variable F : realFieldType.
Variable nStates : nat.
Variable Reading : Type.
Variable makeFromSensorReadingImpl :
  forall sz : nat, Reading -> MSF_Measurement F sz -> MSF_Measurement F sz.

Local Notation meas_step := (@meas_step F nStates Reading
                               makeFromSensorReadingImpl).

Implicit Types (m : MSF_MeasurementBase F nStates).

(** C5 (as amended): [MSF_InvalidMeasurement::apply] returns normally and
    without a value, writes one error message to the ROS log, and leaves
    the snapshot (state vector, covariance and all) and the core as they
    were. *)
Theorem C5_invalid_apply_logs_and_keeps_state
    (m : MSF_InvalidMeasurement F) (s : EKFState F nStates)
    (w : World F nStates) :
  let: (r, s', w') := MSF_InvalidMeasurement_apply m s w in
  r = Ok tt /\ s' = s /\ stateVector s' = stateVector s /\ P_ s' = P_ s
  /\ core w' = core w
  /\ exists msg, trace w' = rcons (trace w) (RosError F msg).
Proof. by do 5!split=> //; eexists. Qed.


Lemma init_time_step (m : MSF_InitMeasurement F nStates) op :
  init_time_ (init_step m op) = init_time_ m
  /\ ContainsInitialSensorReadings_ (init_step m op) =
     ContainsInitialSensorReadings_ m.
Proof. by case: op. Qed.


(** *** The scheduler *)

Local Notation leT := (fun a b : MSF_MeasurementBase F nStates =>
                         time_ a <= time_ b).

Lemma leT_trans : transitive leT.
Proof. by move=> y x z /= xy yz; exact: le_trans xy yz. Qed.

Lemma path_enqueue z m (q : Scheduler F nStates) :
  time_ z <= time_ m -> path leT z q -> path leT z (enqueue m q).
Proof.
elim: q z => [|x q IH] z zm /=; first by rewrite zm.
case/andP=> zx xq; rewrite /sortMeasurements; case: ltP => [mx|xm] /=.
  by rewrite zm (ltW mx) xq.
by rewrite zx IH.
Qed.

Lemma sorted_enqueue m (q : Scheduler F nStates) :
  sorted leT q -> sorted leT (enqueue m q).
Proof.
case: q => [|x q] //= xq.
rewrite /sortMeasurements; case: ltP => [mx|xm] /=.
  by rewrite (ltW mx) xq.
exact: path_enqueue.
Qed.

Lemma count_enqueue (a : pred (MSF_MeasurementBase F nStates)) m q :
  count a (enqueue m q) = (a m + count a q)%N.
Proof.
elim: q => [|x q IH] //=; case: ifP => _ //=.
by rewrite IH addnCA.
Qed.

Lemma filter_none t (q : Scheduler F nStates) :
  all (fun y => t < time_ y) q -> [seq y <- q | time_ y == t] = [::].
Proof.
elim: q => [|y q IH] //= /andP [ty tq].
by rewrite gt_eqF // IH.
Qed.

Lemma filter_after t x (q : Scheduler F nStates) :
  t < time_ x -> path leT x q ->
  [seq y <- x :: q | time_ y == t] = [::].
Proof.
move=> tx; rewrite (path_sortedE leT_trans) => /andP [xq _].
apply: filter_none; rewrite /= tx /=.
by apply: sub_all xq => y; exact: lt_le_trans.
Qed.

Lemma filter_enqueue t m (q : Scheduler F nStates) :
  sorted leT q ->
  [seq y <- enqueue m q | time_ y == t] =
  if time_ m == t then rcons [seq y <- q | time_ y == t] m
  else [seq y <- q | time_ y == t].
Proof.
elim: q => [|x q IH] /=; first by case: ifP.
rewrite /sortMeasurements; case: ltP => [mx|xm] xq.
  rewrite [in LHS]/=; case: eqP => [mt|_] //.
  by have /= -> := filter_after (t := t) _ xq; rewrite // -mt.
rewrite /= IH ?(path_sorted xq) //.
by case: (time_ x == t); case: (time_ m == t).
Qed.

Lemma sorted_enqueueAll ms (q : Scheduler F nStates) :
  sorted leT q -> sorted leT (enqueueAll ms q).
Proof.
rewrite /enqueueAll; elim: ms q => [|m ms IH] q //= sq.
by apply: IH; apply: sorted_enqueue.
Qed.

Lemma filter_enqueueAll t ms (q : Scheduler F nStates) :
  sorted leT q ->
  [seq y <- enqueueAll ms q | time_ y == t] =
  [seq y <- q | time_ y == t] ++ [seq y <- ms | time_ y == t].
Proof.
rewrite /enqueueAll; elim: ms q => [|m ms IH] q sq /=.
  by rewrite cats0.
rewrite IH ?sorted_enqueue // filter_enqueue //.
by case: ifP => _ //; rewrite cat_rcons.
Qed.

Lemma count_enqueueAll (a : pred (MSF_MeasurementBase F nStates)) ms q :
  count a (enqueueAll ms q) = (count a q + count a ms)%N.
Proof.
rewrite /enqueueAll; elim: ms q => [|m ms IH] q /=; first by rewrite addn0.
by rewrite IH count_enqueue addnCA addnA [(a m + _)%N]addnC -addnA.
Qed.

Lemma drain_take_drop n (q : Scheduler F nStates) :
  drain n q = (take n q, drop n q).
Proof.
by elim: n q => [|n IH] [|x q] //=; rewrite IH.
Qed.

Lemma size_enqueueAll ms (q : Scheduler F nStates) :
  size (enqueueAll ms q) = (size q + size ms)%N.
Proof. by rewrite -!count_predT count_enqueueAll. Qed.

(** C4: whatever the order in which measurements are enqueued, draining
    the scheduler yields all of them, by ascending timestamp, and those
    with the same timestamp in the order in which they were enqueued. *)
Theorem C4_scheduler_yields_stable_time_order
    (ms : seq (MSF_MeasurementBase F nStates)) :
  let d := drain (size ms) (enqueueAll ms [::]) in
  d.2 = [::]
  /\ sorted leT d.1
  /\ (forall t, [seq y <- d.1 | time_ y == t] = [seq y <- ms | time_ y == t])
  /\ (forall a : pred _, count a d.1 = count a ms).
Proof.
rewrite /= drain_take_drop /=.
have sz := size_enqueueAll ms [::]; rewrite add0n in sz.
rewrite -sz take_size drop_size; split=> //; split.
  exact: sorted_enqueueAll.
split=> [t|a]; first by rewrite filter_enqueueAll.
by rewrite count_enqueueAll.
Qed.

End MeasurementTheory.

(** ** The correction and the resolution of delays *)
Section CorrectionTheory.

Variable F : realFieldType.
Variable nStates : nat.
Variable reapplyFrom_hook :
  F -> seq (EKFState F nStates) -> seq (EKFState F nStates).

Local Notation EKFState := (EKFState F nStates).
Local Notation World := (World F nStates).
Local Notation sensor_apply := (MSF_Measurement_apply reapplyFrom_hook).
Local Notation reapplyFrom := (reapplyFrom reapplyFrom_hook).

Implicit Types (s : EKFState) (w : World) (buf : seq EKFState).

(** *** Matrices *)

Lemma dmx_to_Dmx (m n : nat) (A : 'M[F]_(m, n)) : dmx_to m n (Dmx A) = Some A.
Proof.
rewrite /dmx_to /= !eqxx /=; congr Some.
by apply/matrixP => i j; rewrite mxE /dentry /= !valK.
Qed.

Lemma dmx_to_size (m n : nat) (A : dmx F) (A' : 'M[F]_(m, n)) :
  dmx_to m n A = Some A' -> drows A = m /\ dcols A = n.
Proof. by rewrite /dmx_to; case: eqP => // ->; case: eqP => // ->. Qed.

Lemma dmx_to_inv (m n : nat) (A : dmx F) (A' : 'M[F]_(m, n)) :
  dmx_to m n A = Some A' -> A = Dmx A'.
Proof.
case: A => r c A; rewrite /dmx_to /=.
case: eqP => //= er; case: eqP => //= ec; move: A; rewrite er ec => A [<-].
by congr Dmx; apply/matrixP => i j; rewrite mxE /dentry /= !valK.
Qed.






(** *** The buffer *)

Lemma onth_replace_nth (T : Type) (l : seq T) k (x y : T) :
  onth l k = Some y -> onth (replace_nth l k x) k = Some x.
Proof. by rewrite /onth; elim: l k => [|z l IH] [|k] //=; exact: IH. Qed.

Lemma onth_replace_nth_neq (T : Type) (l : seq T) k j (x : T) :
  j != k -> onth (replace_nth l k x) j = onth l j.
Proof.
rewrite /onth; elim: l k j => [|z l IH] [|k] [|j] //= jk.
exact: IH.
Qed.


Lemma size_replace_nth (T : Type) (l : seq T) k (x : T) :
  size (replace_nth l k x) = size l.
Proof. by elim: l k => [|z l IH] [|k] //=; rewrite IH. Qed.

(** *** One correction *)

Lemma P_corrected (m : nat) s (H : 'M[F]_(m, nStates)) res R :
  P_ (corrected s H res R) = joseph (P_ s) (gain (P_ s) H R) H R.
Proof. by []. Qed.

Lemma stateVector_corrected (m : nat) s (H : 'M[F]_(m, nStates)) res R :
  stateVector (corrected s H res R) =
  stateVector s + gain (P_ s) H R *m res.
Proof.
apply/matrixP => i j; rewrite !mxE /= ffunE /=.
by rewrite ord1 mxE.
Qed.


Lemma correction_fails k (Hd resd Rd : dmx F) w e w' :
  calculateAndApplyCorrection k Hd resd Rd w = (Err e, w') ->
  core w' = core w
  /\ [\/ e = DimensionMismatch, e = SingularInnovation | e = TooOld].
Proof.
rewrite /calculateAndApplyCorrection /bind /sized.
case eH: (dmx_to _ _ Hd) => [H|] /=; last first.
  by case=> <- <-; split=> //; constructor 1.
case eres: (dmx_to _ _ resd) => [res|] /=; last first.
  by case=> <- <-; split=> //; constructor 1.
case eR: (dmx_to _ _ Rd) => [R|] /=; last first.
  by case=> <- <-; split=> //; constructor 1.
rewrite /deref /bind /=.
case es: (onth _ k) => [s|] /=; last first.
  by case=> <- <-; split=> //; constructor 3.
case: ifP => unitS /=.
  by rewrite (onth_replace_nth _ es).
by case=> <- <-; split=> //; constructor 2.
Qed.


(** *** Looking a snapshot up by time *)

Local Notation newest_first :=
  (fun a b : EKFState => state_time b <= state_time a).







(** *** [apply] of a sensor measurement *)

Lemma apply_head sz (m : MSF_Measurement F sz) w head rest :
  stateBuffer (core w) = head :: rest ->
  state_time head <= meas_time_ m ->
  sensor_apply m w =
  calculateAndApplyCorrection 0 (H_ m) (res_ m) (Dmx (R_ m)) w.
Proof.
by move=> eb le; rewrite /MSF_Measurement_apply /bind /= eb le.
Qed.



Lemma apply_fails sz (m : MSF_Measurement F sz) w e w' :
  sensor_apply m w = (Err e, w') ->
  core w' = core w
  /\ [\/ e = DimensionMismatch, e = SingularInnovation | e = TooOld].
Proof.
rewrite /MSF_Measurement_apply {1}/bind /=.
case eb: (stateBuffer (core w)) => [|head rest].
  by case=> <- <-; split=> //; constructor 3.
case: ifP => _; first exact: correction_fails.
case ek: (findAtOrBefore _ _) => [k|]; last first.
  by case=> <- <-; split=> //; constructor 3.
rewrite /bind.
case run: (calculateAndApplyCorrection _ _ _ _ w) => [[[]|e1] w1] //.
by case=> <- <-; exact: correction_fails run.
Qed.


(** C2: a correction that fails, in [apply] or in
    [calculateAndApplyCorrection] itself, fails with [DimensionMismatch],
    [SingularInnovation] or [TooOld] and leaves the core as it was: every
    snapshot of the buffer, the targeted one among them, has the state
    vector and the covariance it had before. *)
Theorem C2_failed_correction_is_atomic
    sz (m : MSF_Measurement F sz) k (Hd resd Rd : dmx F) w e w' :
  sensor_apply m w = (Err e, w')
  \/ calculateAndApplyCorrection k Hd resd Rd w = (Err e, w') ->
  [/\ core w' = core w,
      forall j s, onth (stateBuffer (core w)) j = Some s ->
        exists s', [/\ onth (stateBuffer (core w')) j = Some s',
                       stateVector s' = stateVector s & P_ s' = P_ s]
    & [\/ e = DimensionMismatch, e = SingularInnovation | e = TooOld]].
Proof.
move=> fails.
have [ec ee] : core w' = core w
    /\ [\/ e = DimensionMismatch, e = SingularInnovation | e = TooOld].
  by case: fails; [exact: apply_fails | exact: correction_fails].
by split=> // j s ej; exists s; rewrite ec.
Qed.


End CorrectionTheory.

(** ** More on the header: how its operations compose *)
Section InitMeasurementAlgebra.

Variable F : realFieldType.
Variable nStates : nat.

Implicit Types (s : EKFState F nStates) (m : MSF_InitMeasurement F nStates).
Implicit Types (i j : 'I_nStates) (u v : F).
Implicit Types (op : InitOp F nStates) (ops : seq (InitOp F nStates)).

Lemma InitMeasurement_eq m1 m2 :
  init_time_ m1 = init_time_ m2 -> InitState m1 = InitState m2 ->
  ContainsInitialSensorReadings_ m1 = ContainsInitialSensorReadings_ m2 ->
  m1 = m2.
Proof. by case: m1 => ? ? ?; case: m2 => ? ? ? /= -> -> ->. Qed.

Lemma updStateVar_ext s i (f g : StateVar F -> StateVar F) :
  f (statevars_ s i) = g (statevars_ s i) ->
  updStateVar s i f = updStateVar s i g.
Proof.
move=> e; apply: EKFState_eq => //=.
by apply/ffunP => j; rewrite !ffunE; case: eqP => // ->.
Qed.

Lemma updStateVar_comp s i (f g : StateVar F -> StateVar F) :
  updStateVar (updStateVar s i f) i g = updStateVar s i (g \o f).
Proof.
apply: EKFState_eq => //=.
by apply/ffunP => j; rewrite !ffunE; case: (j == i).
Qed.

Lemma updStateVar_comm s i j (f g : StateVar F -> StateVar F) :
  i != j ->
  updStateVar (updStateVar s i f) j g = updStateVar (updStateVar s j g) i f.
Proof.
move=> ij; apply: EKFState_eq => //=.
apply/ffunP => k; rewrite !ffunE.
case: (eqVneq k j) => [kj|_]; case: (eqVneq k i) => [ki|_] //.
by move: ij; rewrite -ki -kj eqxx.
Qed.

Lemma updStateVar_id s i (f : StateVar F -> StateVar F) :
  f (statevars_ s i) = statevars_ s i -> updStateVar s i f = s.
Proof.
move=> e; apply: EKFState_eq => //=.
by apply/ffunP => j; rewrite !ffunE; case: eqP => // ->.
Qed.

Lemma getStateInitValue_step m op j :
  getStateInitValue (init_step m op) j =
  match op with
  | OpSet i v => if j == i then v else getStateInitValue m j
  | _ => getStateInitValue m j
  end.
Proof.
case: op => [i v|i|P|w|a] //=.
- exact: getStateInitValue_set.
- exact: getStateInitValue_reset.
Qed.

Lemma flag_step_untouched m op j :
  ~~ touches j op -> hasInitValue (init_step m op) j = hasInitValue m j.
Proof.
rewrite hasInitValue_step; case: op => [i v|i|P|w|a] //=.
  by rewrite eq_sym => /negbTE ->.
by rewrite eq_sym => ->.
Qed.

Lemma value_step_untouched m op j :
  ~~ touches j op ->
  getStateInitValue (init_step m op) j = getStateInitValue m j.
Proof.
rewrite getStateInitValue_step; case: op => [i v|i|P|w|a] //=.
by rewrite eq_sym => /negbTE ->.
Qed.

(** X5: [setStateInitValue<i>] changes component [i] and nothing else: the
    value and the flag of every other component, the covariance, the two
    sensor readings, the timestamp and the
    [ContainsInitialSensorReadings_] flag are what they were. *)
Theorem X5_set_changes_one_component m i v j :
  j != i ->
  [/\ getStateInitValue (setStateInitValue m i v) j = getStateInitValue m j,
      hasInitValue (setStateInitValue m i v) j = hasInitValue m j,
      get_P (setStateInitValue m i v) = get_P m
    & get_w_m (setStateInitValue m i v) = get_w_m m
      /\ get_a_m (setStateInitValue m i v) = get_a_m m
      /\ init_time_ (setStateInitValue m i v) = init_time_ m
      /\ ContainsInitialSensorReadings_ (setStateInitValue m i v) =
         ContainsInitialSensorReadings_ m].
Proof.
move=> /negbTE ji; split=> //.
- by rewrite getStateInitValue_set ji.
- by rewrite hasInitValue_set ji.
Qed.

(** X6: [setStateInitValue<i>] overrides whatever was done to component
    [i] before it: after an earlier [setStateInitValue<i>] or an earlier
    [resetStateInitValue<i>] the measurement is the one that the later set
    alone would have given. *)
Theorem X6_set_overrides_earlier_set_and_reset m i u v :
  setStateInitValue (setStateInitValue m i u) i v = setStateInitValue m i v
  /\ setStateInitValue (resetStateInitValue m i) i v =
     setStateInitValue m i v.
Proof.
by split; apply: InitMeasurement_eq => //=; rewrite !updStateVar_comp;
   apply: updStateVar_ext.
Qed.

(** X7: operations on two different components can be done in either
    order: two sets, a set and a reset, and two resets commute. *)
Theorem X7_operations_on_different_components_commute m i j u v :
  i != j ->
  [/\ setStateInitValue (setStateInitValue m i u) j v =
      setStateInitValue (setStateInitValue m j v) i u,
      resetStateInitValue (setStateInitValue m i u) j =
      setStateInitValue (resetStateInitValue m j) i u
    & resetStateInitValue (resetStateInitValue m i) j =
      resetStateInitValue (resetStateInitValue m j) i].
Proof.
move=> ij; have ji : j != i by rewrite eq_sym.
split; apply: InitMeasurement_eq => //=.
- rewrite !updStateVar_comp.
  by rewrite (updStateVar_comm _ _ _ ij).
- rewrite !updStateVar_comp.
  by rewrite (updStateVar_comm _ _ _ ij).
- by rewrite (updStateVar_comm _ _ _ ij).
Qed.

(** X8: [resetStateInitValue<i>] on a component whose flag is clear
    changes nothing at all. *)
Theorem X8_reset_of_clear_flag_is_noop m i :
  ~~ hasInitValue m i -> resetStateInitValue m i = m.
Proof.
rewrite /hasInitValue /getStateVar => /negbTE h.
apply: InitMeasurement_eq => //=; apply: updStateVar_id.
by apply: StateVar_eq => //=; rewrite h.
Qed.

(** X9: [setStateInitValue<i>] with the value that is already stored, on
    a component that is already flagged, changes nothing at all. *)
Theorem X9_set_of_stored_value_is_noop m i :
  hasInitValue m i -> setStateInitValue m i (getStateInitValue m i) = m.
Proof.
rewrite /hasInitValue /getStateInitValue /getStateVar => h.
apply: InitMeasurement_eq => //=; rewrite updStateVar_comp.
by apply: updStateVar_id; apply: StateVar_eq => //=; rewrite h.
Qed.

Lemma init_run_cons m op ops :
  init_run m (op :: ops) = init_run (init_step m op) ops.
Proof. by []. Qed.

Lemma run_untouched m j ops :
  ~~ has (touches j) ops ->
  getStateInitValue (init_run m ops) j = getStateInitValue m j
  /\ hasInitValue (init_run m ops) j = hasInitValue m j.
Proof.
elim: ops m => [|op ops IH] m //=; rewrite negb_or => /andP [nt nh].
have [-> ->] := IH (init_step m op) nh.
by rewrite value_step_untouched // flag_step_untouched.
Qed.

(** X10: a value staged for component [j] stays staged through any later
    operations that are not a set or a reset of [j]: after them the read
    of [j] yields that value and the flag of [j] is set. *)
Theorem X10_staged_value_survives_other_operations m j v ops :
  ~~ has (touches j) ops ->
  getStateInitValue (init_run (setStateInitValue m j v) ops) j = v
  /\ hasInitValue (init_run (setStateInitValue m j v) ops) j.
Proof.
move=> nh; have [-> ->] := run_untouched (setStateInitValue m j v) nh.
by rewrite getStateInitValue_set hasInitValue_set eqxx.
Qed.

(** X14: a component that was reset stays cleared through any later
    operations that are not a set or a reset of it: after them its flag is
    clear, and the read of it still yields the value stored before the
    reset. *)
Theorem X14_reset_lasts_through_other_operations m j ops :
  ~~ has (touches j) ops ->
  hasInitValue (init_run (resetStateInitValue m j) ops) j = false
  /\ getStateInitValue (init_run (resetStateInitValue m j) ops) j =
     getStateInitValue m j.
Proof.
move=> nh; have [-> ->] := run_untouched (resetStateInitValue m j) nh.
by rewrite hasInitValue_reset eqxx getStateInitValue_reset.
Qed.


(** X12: [get_P], [get_w_m] and [get_a_m] give access to three separate
    members, none of which holds an init value or a flag: what is written
    through one of the references is read back through it, is not seen
    through the other two, and changes no [getStateInitValue] result and
    no flag; writing back what was read changes nothing. *)
Theorem X12_references_are_separate m (P : 'M[F]_nStates)
    (w a : 'cV[F]_3) j :
  [/\ get_P (assign_P m P) = P /\ get_w_m (assign_w_m m w) = w
      /\ get_a_m (assign_a_m m a) = a,
      get_w_m (assign_P m P) = get_w_m m /\ get_a_m (assign_P m P) = get_a_m m
      /\ get_P (assign_w_m m w) = get_P m
      /\ get_a_m (assign_w_m m w) = get_a_m m
      /\ get_P (assign_a_m m a) = get_P m
      /\ get_w_m (assign_a_m m a) = get_w_m m,
      getStateInitValue (assign_a_m (assign_w_m (assign_P m P) w) a) j =
      getStateInitValue m j,
      hasInitValue (assign_a_m (assign_w_m (assign_P m P) w) a) j =
      hasInitValue m j
    & assign_a_m (assign_w_m (assign_P m (get_P m)) (get_w_m m)) (get_a_m m)
      = m].
Proof.
split=> //.
by apply: InitMeasurement_eq => //=; apply: EKFState_eq.
Qed.

End InitMeasurementAlgebra.

(** ** More on the header: the comparator and the other measurements *)
Section ComparatorTheory.

Variable F : realFieldType.
Variable nStates : nat.
Variable Reading : Type.
Variable makeFromSensorReadingImpl :
  forall sz : nat, Reading -> MSF_Measurement F sz -> MSF_Measurement F sz.

Local Notation meas_step := (@meas_step F nStates Reading
                               makeFromSensorReadingImpl).
Local Notation makeFromSensorReading :=
  (@makeFromSensorReading F Reading makeFromSensorReadingImpl).

Implicit Types (a b c x : MSF_MeasurementBase F nStates).

(** X1: [sortMeasurements] is a strict order: no measurement is before
    itself, two measurements are never each before the other, and "before"
    is transitive. *)
Theorem X1_sortMeasurements_is_a_strict_order a b c :
  [&& ~~ sortMeasurements a a,
      sortMeasurements a b ==> ~~ sortMeasurements b a
    & sortMeasurements a b && sortMeasurements b c ==> sortMeasurements a c].
Proof.
rewrite /sortMeasurements ltxx /=; apply/andP; split.
  by apply/implyP => ab; rewrite -leNgt ltW.
by apply/implyP => /andP [ab bc]; exact: lt_trans ab bc.
Qed.

(** X2: the measurements that [sortMeasurements] does not order are those
    with the same timestamp, whatever their kinds and payloads; of "a
    before b", "b before a" and "same timestamp" exactly one holds, and
    being unordered is transitive. *)
Theorem X2_unordered_means_same_timestamp a b c :
  [/\ unordered a b = (time_ a == time_ b),
      (sortMeasurements a b + sortMeasurements b a + unordered a b = 1)%N
    & unordered a b && unordered b c ==> unordered a c].
Proof.
have un x y : unordered x y = (time_ x == time_ y).
  by rewrite /unordered /sortMeasurements -!leNgt eq_le andbC.
split; first exact: un.
  rewrite un /sortMeasurements.
  by case: (ltgtP (time_ a) (time_ b)).
rewrite !un; apply/implyP => /andP [/eqP -> /eqP ->].
exact: eqxx.
Qed.

(** X3: staging values does not move a measurement in the order: no
    operation of [MSF_InitMeasurement] changes how [sortMeasurements]
    compares the measurement with any other, on either side. *)
Theorem X3_init_operations_keep_the_order (m : MSF_InitMeasurement F nStates)
    (op : InitOp F nStates) x :
  sortMeasurements (meas_step (IsInit m) (OpInit Reading op)) x =
  sortMeasurements (IsInit m) x
  /\ sortMeasurements x (meas_step (IsInit m) (OpInit Reading op)) =
     sortMeasurements x (IsInit m).
Proof.
rewrite /sortMeasurements /=.
by have [-> _] := init_time_step m op.
Qed.

(** X4: when the conversion hook of the sensor does not assign [time_],
    [makeFromSensorReading] leaves the measurement with the timestamp it
    was given, whatever timestamp it had before; two measurements made
    from readings are then ordered by the timestamps given. *)
Theorem X4_makeFromSensorReading_sets_the_timestamp
    sz1 sz2 (m1 : MSF_Measurement F sz1) (m2 : MSF_Measurement F sz2)
    (r1 r2 : Reading) (t1 t2 : F) :
  (forall sz r (m : MSF_Measurement F sz),
     meas_time_ (makeFromSensorReadingImpl r m) = meas_time_ m) ->
  meas_time_ (makeFromSensorReading m1 r1 t1) = t1
  /\ sortMeasurements
       (IsSensor nStates (makeFromSensorReading m1 r1 t1))
       (IsSensor nStates (makeFromSensorReading m2 r2 t2)) = (t1 < t2).
Proof.
move=> keeps.
by rewrite /sortMeasurements /= /makeFromSensorReading !keeps.
Qed.

(** X13: [apply] of an invalid measurement can be called any number of
    times: after [n] calls the snapshot and the core are what they were
    and the log has grown by exactly [n] copies of the same line; which
    invalid measurement it was called on makes no difference. *)
Theorem X13_repeated_invalid_apply (n : nat)
    (m m' : MSF_InvalidMeasurement F) (s : EKFState F nStates)
    (w : World F nStates) :
  invalid_apply_n n m s w =
    (s, {| core := core w;
           trace := trace w ++ nseq n (RosError F invalid_apply_message) |})
  /\ invalid_apply_n n m s w = invalid_apply_n n m' s w.
Proof.
have run : forall m0 w0, invalid_apply_n n m0 s w0 =
    (s, {| core := core w0;
           trace := trace w0 ++ nseq n (RosError F invalid_apply_message) |}).
  move=> m0; elim: n => [|k IH] w0 /=.
    by rewrite cats0; case: w0.
  by rewrite IH /= -cats1 -catA.
by rewrite !run.
Qed.

End ComparatorTheory.

(** * Part III: the properties on concrete filters, over the rationals *)
Section Concrete.

Local Notation Q := rat.



Lemma hasInitValue_blank (n : nat) (t : Q) (b : bool) (i : 'I_n) :
  hasInitValue (MSF_InitMeasurement_ctor (blankState n 0) t b) i = false.
Proof. by rewrite /hasInitValue /getStateVar /= ffunE. Qed.

Lemma getStateInitValue_blank (n : nat) (t : Q) (b : bool) (i : 'I_n) :
  getStateInitValue (MSF_InitMeasurement_ctor (blankState n 0) t b) i = 0.
Proof. by rewrite /getStateInitValue /getStateVar /= ffunE. Qed.

(** C5, counterexample to "returns an Invalid error result": on the blank
    snapshot and the empty world [apply] of an invalid measurement returns
    normally, not with an [Invalid] error; the error is only on the log. *)
Lemma C5_invalid_apply_returns_normally :
  let out := MSF_InvalidMeasurement_apply (mkInvalid (0 : Q))
               (blankState 2 0) (emptyWorld Q 2) in
  out.1.1 = Ok tt /\ out.1.1 <> Err Invalid.
Proof. by []. Qed.

(** C6, counterexample to "set once until reset": component 0 is flagged
    with value 1 and a second [setStateInitValue] on it, with no reset in
    between, is carried out: the stored value becomes 2. *)
Lemma C6_second_set_goes_through :
  let m1 := setStateInitValue (blankInit 2) ord0 1 in
  let m2 := setStateInitValue m1 ord0 2 in
  [/\ hasInitValue m1 ord0, hasInitValue m2 ord0,
      getStateInitValue m1 ord0 = 1, getStateInitValue m2 ord0 = 2
    & m2 <> m1].
Proof.
split; rewrite ?hasInitValue_set ?getStateInitValue_set ?eqxx //.
move/(congr1 (fun m => getStateInitValue m ord0)).
by rewrite !getStateInitValue_set eqxx.
Qed.

(** C7, counterexample to "fails with NotSet": after set-then-reset the
    flag of component 0 is clear, and the read yields the value 5 instead
    of [NotSet]; on a measurement on which nothing was ever set it yields
    the default. *)
Lemma C7_read_of_unflagged_component_succeeds :
  let m := resetStateInitValue (setStateInitValue (blankInit 2) ord0 5) ord0 in
  [/\ hasInitValue m ord0 = false,
      getStateInitValue_result m ord0 = Ok 5,
      getStateInitValue_result m ord0 <> Err NotSet,
      hasInitValue (blankInit 2) ord0 = false
    & getStateInitValue_result (blankInit 2) ord0 = Ok 0].
Proof.
split=> //.
- by rewrite hasInitValue_reset eqxx.
- by rewrite /getStateInitValue_result getStateInitValue_reset
             getStateInitValue_set eqxx.
- exact: hasInitValue_blank.
- by rewrite /getStateInitValue_result getStateInitValue_blank.
Qed.


(** *** The scenario of the specification *)

(** Measurements enqueued at times 1, 3, 2 are yielded at times 1, 2, 3;
    two measurements taken at time 2 come out in the order they went in. *)
Lemma scheduler_scenario :
  let at_ (t : Q) : MSF_MeasurementBase Q 1 := IsInvalid 1 (mkInvalid t) in
  let q := enqueueAll [:: at_ 1; at_ 3; at_ 2] [::] in
  let q2 := enqueueAll [:: at_ 2; IsInit (blankInit 1);
                           IsSensor 1 (blankSensor 2); at_ 0] [::] in
  [seq time_ x | x <- (drain 3 q).1] = [:: 1; 2; 3]
  /\ (drain 3 q).2 = [::]
  /\ [seq (time_ x, kind x) | x <- (drain 4 q2).1] =
     [:: (0, KInit); (0, KInvalid); (2, KInvalid); (2, KTyped)].
Proof. by []. Qed.

(** A measurement at time 2 against a buffer with snapshots at times 3 and
    1 is matched to the second one; against a buffer whose oldest snapshot
    is at time 3 it is too old. *)
Lemma lookup_scenario :
  findAtOrBefore [:: blankState 1 (3 : Q); blankState 1 1] 2 = Some 1%N
  /\ findAtOrBefore [:: blankState 1 (4 : Q); blankState 1 3] 2 = None.
Proof. by []. Qed.

(** *** Witnesses *)

Local Notation newest_first :=
  (fun a b : EKFState Q 1 => state_time b <= state_time a).
Local Notation no_hook := (fun (_ : Q) (buf : seq (EKFState Q 1)) => buf).

(** C8 on components 0 and 1 of a two-component state, staged by two
    sensors. *)
Lemma C8_staged_init_witness :
  let m1 := setStateInitValue (blankInit 2) ord0 1 in
  let m2 := setStateInitValue (blankInit 2) ord_max 2 in
  let s := blankState 2 (0 : Q) in
  let ap := MSF_InitMeasurement_apply (1%:M : 'M[Q]_2) in
  [/\ forall i, ~~ (hasInitValue m1 i && hasInitValue m2 i),
      ap m2 (ap m1 s) = ap m1 (ap m2 s),
      state_ (getStateVar (ap m2 (ap m1 s)) ord0) = 1
    & state_ (getStateVar (ap m2 (ap m1 s)) ord_max) = 2].
Proof.
move=> m1 m2 s ap.
have dis : forall i, ~~ (hasInitValue m1 i && hasInitValue m2 i).
  move=> i; rewrite !hasInitValue_set !hasInitValue_blank !orbF.
  by case: eqP => // ->.
have [comm vals _] :=
  C8_staged_init_independent (1%:M : 'M[Q]_2) (blankState 2 0) dis.
split=> //.
- by rewrite vals hasInitValue_set eqxx getStateInitValue_set eqxx.
- rewrite vals !hasInitValue_set !getStateInitValue_set eqxx.
  by rewrite hasInitValue_blank.
Defined.


(** C2 on a correction whose innovation covariance is the zero matrix. *)
Lemma C2_failed_correction_witness :
  let s := blankState 1 (3 : Q) in
  let w := {| core := {| stateBuffer := [:: s] |}; trace := [::] |} in
  let w' := {| core := {| stateBuffer := [:: s] |};
               trace := [:: Reported Q SingularInnovation] |} in
  let m := blankSensor 3 in
  MSF_Measurement_apply no_hook m w = (Err SingularInnovation, w')
  /\ core w' = core w
  /\ exists s', [/\ onth (stateBuffer (core w')) 0 = Some s',
                    stateVector s' = stateVector s & P_ s' = P_ s].
Proof.
move=> s w w' m.
have fails : MSF_Measurement_apply no_hook m w = (Err SingularInnovation, w').
  rewrite (@apply_head _ _ _ _ m w s [::]) //.
  rewrite /calculateAndApplyCorrection /bind /sized !dmx_to_Dmx /=.
  rewrite /deref /bind /= /innovation mulmx0 mul0mx addr0.
  by rewrite unitmxE det0 unitr0.
have [ec keep _] :=
  @C2_failed_correction_is_atomic Q 1 no_hook 1 m 0 (H_ m) (res_ m)
    (Dmx (R_ m)) w SingularInnovation w' (or_introl fails).
split; first exact: fails.
split; first exact: ec.
exact: keep 0%N s (erefl _).
Defined.


(** *** Witnesses for the properties of the header's operations *)

(** X4 with a conversion hook that does nothing. *)
Lemma X4_timestamp_witness :
  let hook := fun (sz : nat) (_ : unit) (m : MSF_Measurement Q sz) => m in
  let mk := @makeFromSensorReading Q unit hook 1 in
  (forall sz r (m : MSF_Measurement Q sz),
     meas_time_ (hook sz r m) = meas_time_ m)
  /\ meas_time_ (mk (blankSensor 5) tt 7) = 7
  /\ sortMeasurements (IsSensor 2 (mk (blankSensor 5) tt 7))
                      (IsSensor 2 (mk (blankSensor 0) tt 9)) = (7 < 9 :> Q).
Proof.
move=> hook mk.
have keeps : forall sz r (m : MSF_Measurement Q sz),
    meas_time_ (hook sz r m) = meas_time_ m by [].
split; first exact: keeps.
exact: (@X4_makeFromSensorReading_sets_the_timestamp Q 2 unit hook 1 1
          (blankSensor 5) (blankSensor 0) tt tt 7 9 keeps).
Defined.

(** X5: staging component 0 of two, seen from component 1. *)
Lemma X5_frame_witness :
  let m := blankInit 2 in
  (ord_max != ord0 :> 'I_2)
  /\ getStateInitValue (setStateInitValue m ord0 1) ord_max =
     getStateInitValue m ord_max
  /\ hasInitValue (setStateInitValue m ord0 1) ord_max =
     hasInitValue m ord_max.
Proof.
move=> m; have ne : (ord_max != ord0 :> 'I_2) by [].
have [e1 e2 _ _] := X5_set_changes_one_component m 1 ne.
by split.
Defined.

(** X7 on components 0 and 1 of two. *)
Lemma X7_commute_witness :
  let m := blankInit 2 in
  (ord0 != ord_max :> 'I_2)
  /\ setStateInitValue (setStateInitValue m ord0 1) ord_max 2 =
     setStateInitValue (setStateInitValue m ord_max 2) ord0 1.
Proof.
move=> m; have ne : (ord0 != ord_max :> 'I_2) by [].
have [e1 _ _] := X7_operations_on_different_components_commute m 1 2 ne.
by split.
Defined.

(** X8 on a measurement on which nothing was staged. *)
Lemma X8_reset_witness :
  ~~ hasInitValue (blankInit 2) ord0
  /\ resetStateInitValue (blankInit 2) ord0 = blankInit 2.
Proof.
have clear : ~~ hasInitValue (blankInit 2) ord0.
  by rewrite hasInitValue_blank.
by split; [exact: clear | exact: X8_reset_of_clear_flag_is_noop clear].
Defined.

(** X9 on a component staged with the value 1. *)
Lemma X9_set_witness :
  let m := setStateInitValue (blankInit 2) ord0 1 in
  hasInitValue m ord0
  /\ setStateInitValue m ord0 (getStateInitValue m ord0) = m.
Proof.
move=> m; have flagged : hasInitValue m ord0.
  by rewrite hasInitValue_set eqxx.
by split; [exact: flagged | exact: X9_set_of_stored_value_is_noop flagged].
Defined.

(** X10: component 0 is staged, then component 1 is staged and reset and
    the covariance is written. *)
Lemma X10_survival_witness :
  let ops : seq (InitOp Q 2) :=
    [:: OpSet ord_max 3; OpReset Q ord_max; OpAssignP 1%:M] in
  ~~ has (touches ord0) ops
  /\ getStateInitValue (init_run (setStateInitValue (blankInit 2) ord0 1) ops)
       ord0 = 1
  /\ hasInitValue (init_run (setStateInitValue (blankInit 2) ord0 1) ops)
       ord0.
Proof.
move=> ops; have nt : ~~ has (touches ord0) ops by [].
split; first exact: nt.
exact: (X10_staged_value_survives_other_operations (blankInit 2) 1 nt).
Defined.

(** X14: component 0 is staged with 1 and reset, then component 1 is
    staged. *)
Lemma X14_reset_witness :
  let m := setStateInitValue (blankInit 2) ord0 1 in
  let ops : seq (InitOp Q 2) := [:: OpSet ord_max 3; OpAssignP 1%:M] in
  ~~ has (touches ord0) ops
  /\ hasInitValue (init_run (resetStateInitValue m ord0) ops) ord0 = false
  /\ getStateInitValue (init_run (resetStateInitValue m ord0) ops) ord0 = 1.
Proof.
move=> m ops; have nt : ~~ has (touches ord0) ops by [].
have [e1 e2] := X14_reset_lasts_through_other_operations m nt.
split; first exact: nt.
split; first exact: e1.
by rewrite e2 getStateInitValue_set eqxx.
Defined.

End Concrete.
